(** * The product catalogue service of [server.js]

    A shallow embedding of the Express application in [src/server.js]:
    the in-memory [products] array, the middleware ([authenticate],
    [validateProduct]), the eight route handlers, the catch-all and the
    global error handler, together with the part of Express' router that
    decides which of them run (registration order, method and path
    matching, [next] / [next(err)] and caught exceptions).

    Conventions of the model.
    - A JavaScript object whose keys are not fixed (a product, a request
      body, the [acc] object of the statistics handler) is a
      [gmap string jsval] of its own properties.
    - Strings are sequences of 8-bit characters; [toLowerCase] and the
      white space skipped by [parseInt] are the ASCII ones, and route
      parameters carry no percent escapes.
    - The numbers computed by the list handler are [NaN] or an integer;
      integers are exact (no rounding of values beyond 2^53).  A number
      inside a JSON document is carried as an integer: the program only
      tests its type, and the counts it computes are integers.
    - [req.query] values and headers are strings; [req.body] is the object
      that [bodyParser.json()] produced.
    - [console.log] / [console.error] output is not part of the state. *)

From Stdlib Require Import ZArith Ascii String List Bool.
From stdpp Require Import gmap strings list fin_maps.

Local Open Scope string_scope.
Local Open Scope list_scope.
Local Open Scope Z_scope.
Set Warnings "-register-all".

(** ** JavaScript values *)

(** The values that reach the handlers.  [JNative text] stands for a
    built-in object or function inherited from [Object.prototype], known
    only through its string conversion [text]. *)
Inductive jsval :=
  | JUndefined
  | JNull
  | JBool (b : bool)
  | JNum (n : Z)
  | JStr (s : string)
  | JArr (items : list jsval)
  | JObj (fields : list (string * jsval))
  | JNative (text : string).

(** A number of the list handler: the result of [parseInt] and of the
    arithmetic on it. *)
Inductive jsnum :=
  | NaN
  | Num (z : Z).

(** [!v] is [negb (truthy v)]. *)
Definition truthy (v : jsval) : bool :=
  match v with
  | JUndefined | JNull => false
  | JBool b => b
  | JNum n => negb (n =? 0)
  | JStr s => negb (String.eqb s "")
  | JArr _ | JObj _ | JNative _ => true
  end.

(** [typeof v]. *)
Definition typeof (v : jsval) : string :=
  match v with
  | JUndefined => "undefined"
  | JNull => "object"
  | JBool _ => "boolean"
  | JNum _ => "number"
  | JStr _ => "string"
  | JArr _ | JObj _ => "object"
  | JNative _ => "function"
  end.

(** [v === w] where at least one side is a primitive (the right operand is
    always a string taken from the request in this program); two objects
    are equal by reference only, which does not arise. *)
Definition strict_eq (v w : jsval) : bool :=
  match v, w with
  | JUndefined, JUndefined => true
  | JNull, JNull => true
  | JBool a, JBool b => Bool.eqb a b
  | JNum a, JNum b => a =? b
  | JStr a, JStr b => String.eqb a b
  | _, _ => false
  end.

(** [a || b]. *)
Definition js_or (a b : jsval) : jsval := if truthy a then a else b.

(** [a ?? b]. *)
Definition nullish (a b : jsval) : jsval :=
  match a with
  | JUndefined | JNull => b
  | _ => a
  end.

(** Reading a property of an object made of own properties only. *)
Definition field (o : gmap string jsval) (k : string) : jsval :=
  default JUndefined (o !! k).

(** A query parameter, header or route parameter that may be missing. *)
Definition of_param (x : option string) : jsval :=
  match x with
  | Some s => JStr s
  | None => JUndefined
  end.

(** ** Strings *)

Definition code (c : ascii) : Z := Z.of_N (N_of_ascii c).

Definition lower_char (c : ascii) : ascii :=
  if (65 <=? code c) && (code c <=? 90)
  then ascii_of_N (N_of_ascii c + 32)
  else c.

(** [s.toLowerCase()]. *)
Fixpoint toLowerCase (s : string) : string :=
  match s with
  | EmptyString => EmptyString
  | String c t => String (lower_char c) (toLowerCase t)
  end.

(** [s.startsWith(t)]. *)
Fixpoint startsWith (s t : string) : bool :=
  match t, s with
  | EmptyString, _ => true
  | String b t', String a s' => Ascii.eqb a b && startsWith s' t'
  | String _ _, EmptyString => false
  end.

(** [s.includes(t)]: [t] starts at some position of [s]. *)
Fixpoint includes (s t : string) : bool :=
  startsWith s t ||
  match s with
  | EmptyString => false
  | String _ s' => includes s' t
  end.

(** Decimal rendering of an integer, as [String(n)] gives it. *)
Definition digit_char (d : Z) : ascii := ascii_of_N (Z.to_N (48 + d)).

Fixpoint digits_of (fuel : nat) (n : Z) (acc : string) : string :=
  match fuel with
  | O => acc
  | S fuel' =>
      let acc' := String (digit_char (n mod 10)) acc in
      if n <? 10 then acc' else digits_of fuel' (n / 10) acc'
  end.

Definition string_of_Z (n : Z) : string :=
  let body := digits_of (S (Z.to_nat (Z.log2 (Z.abs n)))) (Z.abs n) "" in
  if n <? 0 then String "-" body else body.

(** *** parseInt *)

Definition is_white_space (c : ascii) : bool :=
  let n := code c in
  (n =? 9) || (n =? 10) || (n =? 11) || (n =? 12) || (n =? 13) ||
  (n =? 32) || (n =? 160).

Fixpoint trim_start (s : string) : string :=
  match s with
  | EmptyString => EmptyString
  | String c t => if is_white_space c then trim_start t else s
  end.

Definition digit_value (c : ascii) : option Z :=
  let n := code c in
  if (48 <=? n) && (n <=? 57) then Some (n - 48)
  else if (97 <=? n) && (n <=? 122) then Some (n - 87)
  else if (65 <=? n) && (n <=? 90) then Some (n - 55)
  else None.

(** The longest prefix of radix-[R] digits; [None] when it is empty. *)
Fixpoint parse_digits (R : Z) (s : string) (acc : option Z) : option Z :=
  match s with
  | EmptyString => acc
  | String c t =>
      match digit_value c with
      | Some d =>
          if d <? R then parse_digits R t (Some (default 0 acc * R + d))
          else acc
      | None => acc
      end
  end.

(** [parseInt(input)] with no radix argument. *)
Definition parseInt (input : string) : jsnum :=
  let s := trim_start input in
  let '(sign, s) :=
    match s with
    | String "-" t => (-1, t)
    | String "+" t => (1, t)
    | _ => (1, s)
    end in
  let '(R, s) :=
    match s with
    | String "0" (String "x" t) => (16, t)
    | String "0" (String "X" t) => (16, t)
    | _ => (10, s)
    end in
  match parse_digits R s None with
  | None => NaN
  | Some n => Num (sign * n)
  end.

(** *** Arithmetic of the list handler *)

Definition num_sub (a b : jsnum) : jsnum :=
  match a, b with
  | Num x, Num y => Num (x - y)
  | _, _ => NaN
  end.

Definition num_mul (a b : jsnum) : jsnum :=
  match a, b with
  | Num x, Num y => Num (x * y)
  | _, _ => NaN
  end.

Definition num_add (a b : jsnum) : jsnum :=
  match a, b with
  | Num x, Num y => Num (x + y)
  | _, _ => NaN
  end.

(** ToIntegerOrInfinity on the numbers of the model. *)
Definition to_integer (n : jsnum) : Z :=
  match n with
  | NaN => 0
  | Num z => z
  end.

(** [l.slice(start, end)]: a negative bound counts from the end of the
    list, both bounds are clamped to [0 .. length]. *)
Definition slice {A} (l : list A) (start end_ : jsnum) : list A :=
  let len := Z.of_nat (length l) in
  let relativeStart := to_integer start in
  let k := if relativeStart <? 0 then Z.max (len + relativeStart) 0
           else Z.min relativeStart len in
  let relativeEnd := to_integer end_ in
  let final := if relativeEnd <? 0 then Z.max (len + relativeEnd) 0
               else Z.min relativeEnd len in
  take (Z.to_nat (Z.max (final - k) 0)) (drop (Z.to_nat k) l).

(** *** String conversion and the [acc] object of the statistics *)

(** [String(v)], used when a value serves as a property key. *)
Fixpoint to_string (v : jsval) : string :=
  match v with
  | JUndefined => "undefined"
  | JNull => "null"
  | JBool true => "true"
  | JBool false => "false"
  | JNum n => string_of_Z n
  | JStr s => s
  | JArr items =>
      (fix join (l : list jsval) : string :=
         let item x :=
           match x with
           | JUndefined | JNull => ""
           | _ => to_string x
           end in
         match l with
         | [] => ""
         | [x] => item x
         | x :: r => item x +:+ "," +:+ join r
         end) items
  | JObj _ => "[object Object]"
  | JNative text => text
  end.

(** The members every object literal inherits from [Object.prototype]. *)
Definition object_prototype_functions : list string :=
  [ "__defineGetter__"; "__defineSetter__"; "hasOwnProperty";
    "__lookupGetter__"; "__lookupSetter__"; "isPrototypeOf";
    "propertyIsEnumerable"; "toString"; "valueOf"; "toLocaleString" ].

Definition native_function (name : string) : jsval :=
  JNative ("function " +:+ name +:+ "() { [native code] }").

(** [Object.prototype[k]]: [constructor] is the function [Object],
    [__proto__] is an accessor whose getter returns the prototype. *)
Definition object_prototype (k : string) : jsval :=
  if String.eqb k "constructor" then native_function "Object"
  else if String.eqb k "__proto__" then JNative "[object Object]"
  else if existsb (String.eqb k) object_prototype_functions
       then native_function k
  else JUndefined.

(** [acc[k]] for an object literal [acc]: an own property, else the
    inherited one. *)
Definition get_property (acc : gmap string jsval) (k : string) : jsval :=
  match acc !! k with
  | Some v => v
  | None => object_prototype k
  end.

(** [acc[k] = v] for the numbers and strings stored by the statistics:
    the inherited setter of [__proto__] ignores a value that is not an
    object; any other key becomes an own property. *)
Definition set_property (acc : gmap string jsval) (k : string) (v : jsval)
  : gmap string jsval :=
  if String.eqb k "__proto__" then acc else <[k := v]> acc.

(** [(v || 0) + 1]. *)
Definition or_zero_plus_one (v : jsval) : jsval :=
  match js_or v (JNum 0) with
  | JNum n => JNum (n + 1)
  | JBool b => JNum ((if b then 1 else 0) + 1)
  | w => JStr (to_string w +:+ "1")
  end.

(** ** Errors, responses and requests *)

(** [NotFoundError] and [ValidationError] extend [AppError]; the other two
    are the engine's own exceptions. *)
Inductive error :=
  | NotFoundError (message : string)
  | ValidationError (message : string)
  | ReferenceError (message : string)
  | TypeError (message : string).

(** [err.statusCode]: set by the [AppError] constructor only. *)
Definition statusCode (e : error) : option Z :=
  match e with
  | NotFoundError _ => Some 404
  | ValidationError _ => Some 400
  | ReferenceError _ | TypeError _ => None
  end.

Definition message (e : error) : string :=
  match e with
  | NotFoundError m | ValidationError m | ReferenceError m | TypeError m => m
  end.

Abbreviation product := (gmap string jsval).

(** The JSON documents the handlers send. *)
Inductive payload :=
  | Text (s : string)
  | ErrorBody (msg : string)
  | ListBody (page : jsnum) (total : nat) (data : list product)
  | SearchBody (count : nat) (data : list product)
  | StatsBody (data : gmap string jsval)
  | ProductBody (msg : option string) (data : product).

Record response := Response { status : Z; json : payload }.

Inductive http_method := GET | POST | PUT | DELETE | HEAD | OPTIONS | PATCH.

Record request := Request {
  req_method : http_method;
  req_path : string;
  req_query : gmap string string;
  req_headers : gmap string string;
  req_body : gmap string jsval;
  req_params : gmap string string
}.

(** What a middleware or handler does with the request: it sends a
    response, calls [next()], calls [next(err)], or throws. *)
Inductive outcome :=
  | Respond (r : response)
  | Next
  | NextErr (e : error)
  | Throw (e : error).

(** A handler reads the request, may call [uuidv4()] (whose result for
    this request is [uuid]) and may change the [products] array. *)
Definition handler : Type :=
  request → string → list product → list product * outcome.

(** ** Sample in-memory data *)

Definition make_product (id name description : string) (price : Z)
    (category : string) (inStock : bool) : product :=
  <["id" := JStr id]> (<["name" := JStr name]>
  (<["description" := JStr description]> (<["price" := JNum price]>
  (<["category" := JStr category]> (<["inStock" := JBool inStock]> ∅))))).

Definition laptop : product :=
  make_product "1" "Laptop" "High-performance laptop with 16GB RAM" 1200
    "electronics" true.

Definition smartphone : product :=
  make_product "2" "Smartphone" "Latest model with 128GB storage" 800
    "electronics" true.

Definition coffee_maker : product :=
  make_product "3" "Coffee Maker" "Programmable coffee maker with timer" 50
    "kitchen" false.

Definition products : list product := [laptop; smartphone; coffee_maker].

(** ** Middleware *)

(** The logger writes a line to the console and calls [next()]; the JSON
    body parser, whose work is the [req_body] of the request, forwards
    likewise. *)
Definition logger : handler := λ req uuid st, (st, Next).

Definition unauthorized : response :=
  Response 401 (ErrorBody "Unauthorized: Missing or invalid API key").

(** [if (!apiKey || apiKey !== 'mysecretapikey')] answers 401 directly. *)
Definition authenticate : handler := λ req uuid st,
  let apiKey := of_param (req_headers req !! "x-api-key") in
  if negb (truthy apiKey) || negb (strict_eq apiKey (JStr "mysecretapikey"))
  then (st, Respond unauthorized)
  else (st, Next).

(** The presence and type checks on [name] and [price]; a failure goes
    to [next] as a [ValidationError]. *)
Definition validateProduct : handler := λ req uuid st,
  let name := field (req_body req) "name" in
  let price := field (req_body req) "price" in
  if negb (truthy name) || negb (String.eqb (typeof name) "string") then
    (st, NextErr
       (ValidationError "Product name is required and must be a string"))
  else if strict_eq price JUndefined
          || negb (String.eqb (typeof price) "number") then
    (st, NextErr
       (ValidationError "Product price is required and must be a number"))
  else (st, Next).

(** ** Route handlers *)

Definition ok (body : payload) : outcome := Respond (Response 200 body).

(** [GET /] *)
Definition root : handler := λ req uuid st,
  (st, Respond (Response 200 (Text "Hello World 🚀"))).

(** [GET /api/products]: filtering and pagination.  The defaults [1] and
    [3] are numbers, which [parseInt] first turns into a string. *)
Definition list_products : handler := λ req uuid st,
  let category := of_param (req_query req !! "category") in
  let page :=
    parseInt (default (to_string (JNum 1)) (req_query req !! "page")) in
  let limit :=
    parseInt (default (to_string (JNum 3)) (req_query req !! "limit")) in
  let filtered :=
    if truthy category
    then List.filter (λ p, strict_eq (field p "category") category) st
    else st in
  let start := num_mul (num_sub page (Num 1)) limit in
  let end_ := num_add start limit in
  let paginated := slice filtered start end_ in
  (st, ok (ListBody page (length filtered) paginated)).

(** [p.name.toLowerCase()] throws when [p.name] is not a string. *)
Definition lower_name (p : product) : error + string :=
  match field p "name" with
  | JStr n => inr (toLowerCase n)
  | JUndefined =>
      inl (TypeError
             "Cannot read properties of undefined (reading 'toLowerCase')")
  | JNull =>
      inl (TypeError "Cannot read properties of null (reading 'toLowerCase')")
  | _ => inl (TypeError "p.name.toLowerCase is not a function")
  end.

(** [products.filter(p => p.name.toLowerCase().includes(name.toLowerCase()))]:
    the callback runs on the records in order and the first exception
    ends the call. *)
Fixpoint search_filter (name : string) (ps : list product)
  : error + list product :=
  match ps with
  | [] => inr []
  | p :: rest =>
      match lower_name p with
      | inl e => inl e
      | inr n =>
          match search_filter name rest with
          | inl e => inl e
          | inr results =>
              inr (if includes n (toLowerCase name) then p :: results
                   else results)
          end
      end
  end.

(** [GET /api/products/search].  The callback is declared as
    [(req, res) =>], so the identifier [next] of its first statement is
    bound nowhere and evaluating it throws. *)
Definition search_products : handler := λ req uuid st,
  match req_query req !! "name" with
  | Some name =>
      if negb (truthy (JStr name)) then
        (st, Throw (ReferenceError "next is not defined"))
      else
        match search_filter name st with
        | inl e => (st, Throw e)
        | inr results => (st, ok (SearchBody (length results) results))
        end
  | None => (st, Throw (ReferenceError "next is not defined"))
  end.

(** The callback of [products.reduce]. *)
Definition count_category (acc : gmap string jsval) (p : product)
  : gmap string jsval :=
  let k := to_string (field p "category") in
  set_property acc k (or_zero_plus_one (get_property acc k)).

(** [GET /api/products/stats] *)
Definition product_stats : handler := λ req uuid st,
  (st, ok (StatsBody (fold_left count_category st ∅))).

Definition has_id (id : jsval) (p : product) : bool :=
  strict_eq (field p "id") id.

Definition not_found (id : jsval) : error :=
  NotFoundError ("Product with ID " +:+ to_string id +:+ " not found").

(** [GET /api/products/:id] *)
Definition get_product : handler := λ req uuid st,
  let id := of_param (req_params req !! "id") in
  match List.find (has_id id) st with
  | Some p => (st, ok (ProductBody None p))
  | None => (st, NextErr (not_found id))
  end.

(** The object literal of the create handler. *)
Definition new_product (uuid : string) (body : gmap string jsval) : product :=
  <["id" := JStr uuid]> (<["name" := field body "name"]>
  (<["description" := field body "description"]>
  (<["price" := field body "price"]>
  (<["category" := field body "category"]>
  (<["inStock" := nullish (field body "inStock") (JBool true)]> ∅))))).

(** [POST /api/products], after [authenticate] and [validateProduct]. *)
Definition create_product : handler := λ req uuid st,
  let newProduct := new_product uuid (req_body req) in
  (st ++ [newProduct],
   Respond (Response 201
              (ProductBody (Some "Product successfully added") newProduct))).

(** [l.findIndex(f)], with [None] for [-1]. *)
Fixpoint findIndex {A} (f : A → bool) (l : list A) : option nat :=
  match l with
  | [] => None
  | x :: rest => if f x then Some 0%nat else S <$> findIndex f rest
  end.

(** [{ ...old, ...body }]: the properties of [body] win. *)
Definition spread (old body : gmap string jsval) : product := body ∪ old.

(** [PUT /api/products/:id], after [authenticate] and [validateProduct].
    The index that [findIndex] returns is always within the array. *)
Definition update_product : handler := λ req uuid st,
  let id := of_param (req_params req !! "id") in
  match findIndex (has_id id) st with
  | None => (st, NextErr (not_found id))
  | Some productIndex =>
      match st !! productIndex with
      | Some old =>
          let merged := spread old (req_body req) in
          (<[productIndex := merged]> st,
           ok (ProductBody (Some "Product successfully updated") merged))
      | None => (st, NextErr (not_found id))
      end
  end.

(** [DELETE /api/products/:id], after [authenticate]. *)
Definition delete_product : handler := λ req uuid st,
  let id := of_param (req_params req !! "id") in
  match findIndex (has_id id) st with
  | None => (st, NextErr (not_found id))
  | Some productIndex =>
      match st !! productIndex with
      | Some deleted =>
          (delete productIndex st,
           ok (ProductBody (Some "Product successfully deleted") deleted))
      | None => (st, NextErr (not_found id))
      end
  end.

(** The catch-all registered after the routes. *)
Definition unknown_route : handler := λ req uuid st,
  (st, NextErr (NotFoundError "Route not found")).

(** The global error handler:
    [res.status(err.statusCode || 500).json({status: 'error',
    message: err.message || 'Internal Server Error'})]. *)
Definition error_handler (err : error) : response :=
  Response (default 500 (statusCode err))
    (ErrorBody (if String.eqb (message err) "" then "Internal Server Error"
                else message err)).

(** ** Express routing *)

(** A route path is a list of segments: a literal or a named parameter. *)
Inductive segment :=
  | Lit (s : string)
  | Param (name : string).

(** [path.split('/')] *)
Fixpoint split_path (path : string) : list string :=
  match path with
  | EmptyString => [""]
  | String c rest =>
      if Ascii.eqb c "/" then "" :: split_path rest
      else match split_path rest with
           | x :: more => String c x :: more
           | [] => [String c ""]
           end
  end.

(** Routing is not strict: one trailing slash is accepted. *)
Fixpoint drop_trailing_slash (segs : list string) : list string :=
  match segs with
  | [] => []
  | [x] => if String.eqb x "" then [] else [x]
  | x :: rest => x :: drop_trailing_slash rest
  end.

(** Literals are compared without regard to case; a parameter takes one
    non-empty segment. *)
Fixpoint match_segments (pat : list segment) (segs : list string)
    (params : gmap string string) : option (gmap string string) :=
  match pat, segs with
  | [], [] => Some params
  | Lit s :: pat', x :: segs' =>
      if String.eqb (toLowerCase s) (toLowerCase x)
      then match_segments pat' segs' params
      else None
  | Param name :: pat', x :: segs' =>
      if String.eqb x "" then None
      else match_segments pat' segs' (<[name := x]> params)
  | _, _ => None
  end.

Definition match_path (pat : list segment) (path : string)
  : option (gmap string string) :=
  match split_path path with
  | "" :: segs => match_segments pat (drop_trailing_slash segs) ∅
  | _ => None
  end.

(** A [GET] route also serves [HEAD]. *)
Definition handles_method (route_method request_method : http_method)
  : bool :=
  match route_method, request_method with
  | GET, GET | GET, HEAD
  | POST, POST | PUT, PUT | DELETE, DELETE
  | HEAD, HEAD | OPTIONS, OPTIONS | PATCH, PATCH => true
  | _, _ => false
  end.

(** The functions registered on the application, by name. *)
Inductive handler_id :=
  | JsonParser
  | Logger
  | Root
  | ListProducts
  | SearchProducts
  | ProductStats
  | GetProduct
  | Authenticate
  | ValidateProduct
  | CreateProduct
  | UpdateProduct
  | DeleteProduct
  | UnknownRoute
  | ErrorHandler.

(** The callback behind a name.  The error handler takes the error as
    well and is called by [handle] directly. *)
Definition handler_of (h : handler_id) : handler :=
  match h with
  | JsonParser | Logger | ErrorHandler => logger
  | Root => root
  | ListProducts => list_products
  | SearchProducts => search_products
  | ProductStats => product_stats
  | GetProduct => get_product
  | Authenticate => authenticate
  | ValidateProduct => validateProduct
  | CreateProduct => create_product
  | UpdateProduct => update_product
  | DeleteProduct => delete_product
  | UnknownRoute => unknown_route
  end.

Inductive layer :=
  | Use (h : handler_id)
  | Route (m : http_method) (path : list segment) (hs : list handler_id)
  | UseError.

Definition by_id : list segment := [Lit "api"; Lit "products"; Param "id"].

(** The application, in registration order. *)
Definition app : list layer :=
  [ Use JsonParser;
    Use Logger;
    Route GET [] [Root];
    Route GET [Lit "api"; Lit "products"] [ListProducts];
    Route GET [Lit "api"; Lit "products"; Lit "search"] [SearchProducts];
    Route GET [Lit "api"; Lit "products"; Lit "stats"] [ProductStats];
    Route GET by_id [GetProduct];
    Route POST [Lit "api"; Lit "products"]
      [Authenticate; ValidateProduct; CreateProduct];
    Route PUT by_id [Authenticate; ValidateProduct; UpdateProduct];
    Route DELETE by_id [Authenticate; DeleteProduct];
    Use UnknownRoute;
    UseError ].

Definition with_params (req : request) (params : gmap string string)
  : request :=
  Request (req_method req) (req_path req) (req_query req) (req_headers req)
    (req_body req) params.

(** The callbacks of one layer, in order: [next()] moves to the following
    one, a response or an error leaves the layer, and an exception is
    caught and becomes [next(err)]. *)
Fixpoint dispatch (hs : list handler_id) (req : request) (uuid : string)
    (st : list product) (trace : list handler_id)
  : list product * outcome * list handler_id :=
  match hs with
  | [] => (st, Next, trace)
  | h :: rest =>
      match handler_of h req uuid st with
      | (st', Next) => dispatch rest req uuid st' (trace ++ [h])
      | (st', Throw e) => (st', NextErr e, trace ++ [h])
      | (st', o) => (st', o, trace ++ [h])
      end
  end.

(** What a request leaves behind: the [products] array, the response and
    the callbacks that ran. *)
Record result := Result {
  final_state : list product;
  sent : response;
  invoked : list handler_id
}.

(** Express' last resort when the stack is exhausted. *)
Definition finalhandler (err : option error) : response :=
  match err with
  | Some e => Response (default 500 (statusCode e)) (Text (message e))
  | None => Response 404 (Text "Not Found")
  end.

(** The walk over the stack.  While an error is pending only the error
    middleware runs; otherwise a layer runs when method and path match. *)
Fixpoint handle (stack : list layer) (err : option error) (req : request)
    (uuid : string) (st : list product) (trace : list handler_id) : result :=
  match stack with
  | [] => Result st (finalhandler err) trace
  | Use h :: rest =>
      match err with
      | Some _ => handle rest err req uuid st trace
      | None =>
          let '(st', o, trace') := dispatch [h] req uuid st trace in
          match o with
          | Respond r => Result st' r trace'
          | Next => handle rest None req uuid st' trace'
          | NextErr e | Throw e => handle rest (Some e) req uuid st' trace'
          end
      end
  | Route m pat hs :: rest =>
      match err,
            (if handles_method m (req_method req)
             then match_path pat (req_path req) else None) with
      | None, Some params =>
          let '(st', o, trace') :=
            dispatch hs (with_params req params) uuid st trace in
          match o with
          | Respond r => Result st' r trace'
          | Next => handle rest None req uuid st' trace'
          | NextErr e | Throw e => handle rest (Some e) req uuid st' trace'
          end
      | _, _ => handle rest err req uuid st trace
      end
  | UseError :: rest =>
      match err with
      | Some e => Result st (error_handler e) (trace ++ [ErrorHandler])
      | None => handle rest None req uuid st trace
      end
  end.

(** One request against the application. *)
Definition serve (st : list product) (uuid : string) (req : request)
  : result :=
  handle app None req uuid st [].

(** The route a request reaches: the first one, in registration order,
    that matches method and path, with the parameters it captures. *)
Fixpoint first_route (stack : list layer) (req : request)
  : option (list handler_id * gmap string string) :=
  match stack with
  | [] => None
  | Route m pat hs :: rest =>
      match (if handles_method m (req_method req)
             then match_path pat (req_path req) else None) with
      | Some params => Some (hs, params)
      | None => first_route rest req
      end
  | _ :: rest => first_route rest req
  end.

Definition route_of (req : request)
  : option (list handler_id * gmap string string) :=
  first_route app req.

(** How the application ends a request once the callbacks of its route
    have run: the response they sent, or the error handler's.  None of the
    routes leaves through [next()]. *)
Definition finish (x : list product * outcome * list handler_id)
  : option result :=
  let '(st, o, trace) := x in
  match o with
  | Respond r => Some (Result st r trace)
  | NextErr e | Throw e =>
      Some (Result st (error_handler e) (trace ++ [ErrorHandler]))
  | Next => None
  end.

(** ** Notions used to state the properties *)



(** The category filter of a list request: the [category] query value,
    unless it is missing or empty. *)
Definition category_filter (req : request) : option string :=
  match req_query req !! "category" with
  | Some c => if String.eqb c "" then None else Some c
  | None => None
  end.

(** The record's category is exactly the string [c]. *)
Definition in_category (c : string) (p : product) : bool :=
  match p !! "category" with
  | Some (JStr d) => String.eqb d c
  | _ => false
  end.

(** The records a list request selects before pagination. *)
Definition matching (filter : option string) (st : list product)
  : list product :=
  match filter with
  | Some c => List.filter (in_category c) st
  | None => st
  end.




(** The states of the [products] array: the sample data and whatever a
    request leaves behind. *)
Inductive reachable : list product → Prop :=
  | reachable_init : reachable products
  | reachable_step st uuid req :
      reachable st → reachable (final_state (serve st uuid req)).

(** The request carries the expected API key. *)
Definition authorized (req : request) : Prop :=
  req_headers req !! "x-api-key" = Some "mysecretapikey".

(** The body passes the presence and type checks: [name] is a non-empty
    string and [price] is a number. *)
Definition valid_body (body : gmap string jsval) : Prop :=
  (∃ n, body !! "name" = Some (JStr n) ∧ n ≠ "") ∧
  (∃ x, body !! "price" = Some (JNum x)).

(** What one request may do to the collection: nothing, append the
    created record, rewrite one record with the merged one, or remove one
    record. *)
Inductive effect (uuid : string) (body : gmap string jsval)
    (st : list product) : list product → Prop :=
  | effect_none : effect uuid body st st
  | effect_create :
      valid_body body → effect uuid body st (st ++ [new_product uuid body])
  | effect_update i old :
      valid_body body → st !! i = Some old →
      effect uuid body st (<[i := spread old body]> st)
  | effect_delete i : effect uuid body st (delete i st).

(** No record carries the id [id]. *)
Definition absent (id : string) (st : list product) : Prop :=
  ∀ p, p ∈ st → field p "id" ≠ JStr id.


(** The number of records whose category is the string [c]. *)
Definition count_category_of (c : string) (st : list product) : Z :=
  Z.of_nat (length (List.filter (in_category c) st)).

(** A category that is a string and names no member of
    [Object.prototype]. *)
Definition plain_category (p : product) : Prop :=
  ∃ c, p !! "category" = Some (JStr c) ∧ object_prototype c = JUndefined.

(** The routes of the application, as lists of callbacks. *)
Definition list_route := [ListProducts].
Definition search_route := [SearchProducts].
Definition stats_route := [ProductStats].
Definition get_route := [GetProduct].
Definition create_route := [Authenticate; ValidateProduct; CreateProduct].
Definition update_route := [Authenticate; ValidateProduct; UpdateProduct].
Definition delete_route := [Authenticate; DeleteProduct].

(** ** Messages, sample requests and the invariant of the statistics *)

(** The two messages of [validateProduct]. *)
Definition name_required : string :=
  "Product name is required and must be a string".

Definition price_required : string :=
  "Product price is required and must be a number".

(** The header that [authenticate] expects. *)
Definition api_key : gmap string string :=
  {[ "x-api-key" := "mysecretapikey" ]}.

(** Requests on which the statements below are evaluated. *)
Definition bare_post : request :=
  Request POST "/api/products" ∅ ∅ ∅ ∅.






Definition post_kettle : request :=
  Request POST "/api/products" ∅ api_key
    {[ "name" := JStr "Kettle"; "price" := JNum 30;
       "category" := JStr "kitchen" ]} ∅.

Definition get_negative_page : request :=
  Request GET "/api/products" {[ "page" := "-1"; "limit" := "1" ]} ∅ ∅ ∅.

Definition get_electronics : request :=
  Request GET "/api/products" {[ "category" := "electronics" ]} ∅ ∅ ∅.

Definition get_page_abc : request :=
  Request GET "/api/products" {[ "page" := "abc" ]} ∅ ∅ ∅.


Definition post_constructor : request :=
  Request POST "/api/products" ∅ api_key
    {[ "name" := JStr "Brick"; "price" := JNum 2;
       "category" := JStr "constructor" ]} ∅.

Definition get_stats : request :=
  Request GET "/api/products/stats" ∅ ∅ ∅ ∅.

(** The accumulator of the statistics holds positive counts only. *)
Definition counts (acc : gmap string jsval) : Prop :=
  ∀ k v, acc !! k = Some v → ∃ n, v = JNum n ∧ 0 < n.

(** The count an accumulator holds for a key, [0] when it has none. *)
Definition tally (acc : gmap string jsval) (c : string) : Z :=
  match acc !! c with
  | Some (JNum n) => n
  | _ => 0
  end.

(** Case analysis on whether a route's path matches. *)
Ltac case_route :=
  match goal with
  | |- context [match_path ?pat ?path] =>
      let E := fresh "Hpath" in
      destruct (match_path pat path) eqn:E; cbn [handles_method]
  end.

(** Closes the goal that a body is rejected with one of the messages. *)
Ltac rejected := eexists; split; [|reflexivity]; cbn; auto.

(** ** Notions used by the further properties *)

(** The routes that only read the collection. *)
Definition read_route (hs : list handler_id) : Prop :=
  hs = [Root] ∨ hs = list_route ∨ hs = search_route ∨ hs = stats_route ∨
  hs = get_route.

(** Case analysis on the branches of the by-id and search callbacks. *)
Ltac handler_cases st :=
  repeat match goal with
         | |- context [req_query ?r !! "name"] =>
             destruct (req_query r !! "name") eqn:?
         | |- context [negb (truthy ?v)] => destruct (negb (truthy v)) eqn:?
         | |- context [search_filter ?n ?l] =>
             destruct (search_filter n l) eqn:?
         | |- context [List.find ?f ?l] => destruct (List.find f l) eqn:?
         | |- context [findIndex ?f ?l] => destruct (findIndex f l) eqn:?
         | |- context [st !! ?i] => destruct (st !! i) eqn:?
         end.









(** The [total] of a list response and the count the statistics hold
    for a key ([0] when the key is missing). *)
Definition list_total (r : result) : Z :=
  match json (sent r) with
  | ListBody _ total _ => Z.of_nat total
  | _ => 0
  end.

Definition stats_count (r : result) (k : string) : Z :=
  match json (sent r) with
  | StatsBody data => tally data k
  | _ => 0
  end.


(** * Properties *)

(** ** Routing *)

(** The body parser and the logger only forward. *)
Lemma dispatch_pass h req uuid st trace :
  handler_of h = logger →
  dispatch [h] req uuid st trace = (st, Next, (trace ++ [h])).
Proof. intros H. cbn [dispatch]. now rewrite H. Qed.

(** Once an error is pending, the rest of the application is skipped up to
    the error handler. *)
Lemma handle_pending_error e req uuid st trace :
  handle app (Some e) req uuid st trace =
  Result st (error_handler e) (trace ++ [ErrorHandler]).
Proof. reflexivity. Qed.

(** A request that reaches a route is answered by that route's callbacks
    or, when they fail, by the error handler. *)
Lemma serve_route st uuid req hs params res :
  route_of req = Some (hs, params) →
  finish (dispatch hs (with_params req params) uuid st [JsonParser; Logger])
    = Some res →
  serve st uuid req = res.
Proof.
  unfold route_of, serve, app. cbn [first_route handle].
  rewrite !dispatch_pass by reflexivity. cbn [app].
  destruct (req_method req); cbn [handles_method];
    repeat case_route;
    intros Hr Hf; try discriminate Hr;
    injection Hr as <- <-;
    destruct (dispatch _ _ _ _ _) as [[st' o] tr];
    destruct o; cbn in Hf |- *; congruence.
Qed.

(** A request that reaches no route runs the catch-all and the error
    handler. *)
Lemma serve_no_route st uuid req :
  route_of req = None →
  serve st uuid req =
  Result st (Response 404 (ErrorBody "Route not found"))
    [JsonParser; Logger; UnknownRoute; ErrorHandler].
Proof.
  unfold route_of, serve, app. cbn [first_route handle].
  rewrite !dispatch_pass by reflexivity. cbn [app].
  destruct (req_method req); cbn [handles_method];
    repeat case_route; intros Hr; try discriminate Hr; reflexivity.
Qed.

(** The callbacks a request can reach are those of the eight routes. *)
Lemma route_of_cases req hs params :
  route_of req = Some (hs, params) →
  hs = [Root] ∨ hs = list_route ∨ hs = search_route ∨ hs = stats_route ∨
  hs = get_route ∨ hs = create_route ∨ hs = update_route ∨
  hs = delete_route.
Proof.
  unfold route_of, app. cbn [first_route].
  destruct (req_method req); cbn [handles_method];
    repeat case_route; intros Hr; try discriminate Hr;
    injection Hr as <- <-; tauto.
Qed.

(** The three routes that change the collection are the first ones of
    their method. *)
Lemma route_of_create req params :
  req_method req = POST →
  match_path [Lit "api"; Lit "products"] (req_path req) = Some params →
  route_of req = Some (create_route, params).
Proof.
  unfold route_of, app. cbn [first_route]. intros -> Hp.
  cbn [handles_method]. now rewrite Hp.
Qed.

Lemma route_of_update req params :
  req_method req = PUT → match_path by_id (req_path req) = Some params →
  route_of req = Some (update_route, params).
Proof.
  unfold route_of, app. cbn [first_route]. intros -> Hp.
  cbn [handles_method]. now rewrite Hp.
Qed.

Lemma route_of_delete req params :
  req_method req = DELETE → match_path by_id (req_path req) = Some params →
  route_of req = Some (delete_route, params).
Proof.
  unfold route_of, app. cbn [first_route]. intros -> Hp.
  cbn [handles_method]. now rewrite Hp.
Qed.


(** No route of the application leaves through [next()]: its last
    callback answers or fails. *)
Lemma routes_finish req hs params uuid st trace :
  route_of req = Some (hs, params) →
  ∃ res, finish (dispatch hs (with_params req params) uuid st trace)
         = Some res.
Proof.
  intros Hr. apply route_of_cases in Hr.
  set (req' := with_params req params).
  assert (Hauth : ∀ rest,
    (∃ res, finish (dispatch rest req' uuid st (trace ++ [Authenticate]))
            = Some res) →
    ∃ res, finish (dispatch (Authenticate :: rest) req' uuid st trace)
           = Some res).
  { intros rest Hrest. cbn [dispatch handler_of]. unfold authenticate.
    destruct (_ || _); [eexists; reflexivity | exact Hrest]. }
  assert (Hval : ∀ rest tr,
    (∃ res, finish (dispatch rest req' uuid st (tr ++ [ValidateProduct]))
            = Some res) →
    ∃ res, finish (dispatch (ValidateProduct :: rest) req' uuid st tr)
           = Some res).
  { intros rest tr Hrest. cbn [dispatch handler_of]. unfold validateProduct.
    destruct (_ || _); [eexists; reflexivity |].
    destruct (_ || _); [eexists; reflexivity | exact Hrest]. }
  destruct Hr as [->|[->|[->|[->|[->|[->|[->| ->]]]]]]];
    unfold list_route, search_route, stats_route, get_route, create_route,
      update_route, delete_route;
    try apply Hauth; try apply Hval; cbn [dispatch handler_of].
  - eexists; reflexivity.
  - eexists; reflexivity.
  - unfold search_products.
    destruct (req_query req' !! "name") as [name|]; [|eexists; reflexivity].
    destruct (negb _); [eexists; reflexivity|].
    destruct (search_filter name st); eexists; reflexivity.
  - eexists; reflexivity.
  - unfold get_product. destruct (List.find _ st); eexists; reflexivity.
  - eexists; reflexivity.
  - unfold update_product. destruct (findIndex _ st) as [i|];
      [destruct (st !! i)|]; eexists; reflexivity.
  - unfold delete_product. destruct (findIndex _ st) as [i|];
      [destruct (st !! i)|]; eexists; reflexivity.
Qed.

(** ** The middleware *)

(** [authenticate] forwards exactly the requests that carry the key, and
    answers 401 itself otherwise; it never touches the collection. *)
Lemma authenticate_cases req uuid st :
  (authorized req ∧ authenticate req uuid st = (st, Next)) ∨
  (¬ authorized req ∧ authenticate req uuid st = (st, Respond unauthorized)).
Proof.
  unfold authorized, authenticate.
  destruct (req_headers req !! "x-api-key") as [k|]; cbn.
  - destruct (String.eqb_spec k "mysecretapikey") as [->|Hne].
    + left. split; reflexivity.
    + right. split; [congruence|]. now rewrite orb_true_r.
  - right. split; [congruence | reflexivity].
Qed.

(** [validateProduct] forwards exactly the valid bodies and raises a
    [ValidationError] otherwise; it never touches the collection. *)
Lemma validateProduct_cases req uuid st :
  (valid_body (req_body req) ∧ validateProduct req uuid st = (st, Next)) ∨
  (¬ valid_body (req_body req) ∧
   ∃ msg, (msg = name_required ∨ msg = price_required) ∧
          validateProduct req uuid st = (st, NextErr (ValidationError msg))).
Proof.
  unfold valid_body, validateProduct, field.
  destruct (req_body req !! "name") as [[| |b|n|s|l|l|t]|] eqn:Hn; cbn;
    try (right; split; [intros [[? [[=] _]] _] | rejected]).
  - destruct b; cbn;
      (right; split; [intros [[? [[=] _]] _] | rejected]).
  - destruct (n =? 0); cbn;
      (right; split; [intros [[? [[=] _]] _] | rejected]).
  - destruct (String.eqb_spec s "") as [->|Hs]; cbn.
    + right. split; [intros [[? [[= <-] ?]] _]; congruence | rejected].
    + destruct (req_body req !! "price") as [[| |b|x|s'|l|l|t]|] eqn:Hp; cbn;
        try (right; split; [intros [_ [? [=]]] | rejected]).
      left. split; [|reflexivity]. split; eauto.
Qed.

Lemma with_params_headers req params :
  req_headers (with_params req params) = req_headers req.
Proof. reflexivity. Qed.

Lemma with_params_body req params :
  req_body (with_params req params) = req_body req.
Proof. reflexivity. Qed.

Lemma with_params_query req params :
  req_query (with_params req params) = req_query req.
Proof. reflexivity. Qed.

Lemma authorized_with_params req params :
  authorized (with_params req params) ↔ authorized req.
Proof. reflexivity. Qed.

(** A layer that starts with a forwarding callback continues with the
    rest. *)
Lemma dispatch_forward h rest req uuid st trace :
  handler_of h req uuid st = (st, Next) →
  dispatch (h :: rest) req uuid st trace =
  dispatch rest req uuid st (trace ++ [h]).
Proof. intros H. cbn [dispatch]. now rewrite H. Qed.

(** A layer whose first callback answers stops there. *)
Lemma dispatch_respond h rest req uuid st trace r :
  handler_of h req uuid st = (st, Respond r) →
  dispatch (h :: rest) req uuid st trace = (st, Respond r, trace ++ [h]).
Proof. intros H. cbn [dispatch]. now rewrite H. Qed.

Lemma dispatch_error h rest req uuid st trace e :
  handler_of h req uuid st = (st, NextErr e) →
  dispatch (h :: rest) req uuid st trace = (st, NextErr e, trace ++ [h]).
Proof. intros H. cbn [dispatch]. now rewrite H. Qed.

(** ** Create: rejected requests *)

(** C3.  A create request without the expected key is answered 401 by
    [authenticate]; one with the key whose body fails the name/price
    checks (a body without [price] among them) is answered 400 through the
    error handler.  In both cases the create callback does not run and the
    collection is what it was. *)
Theorem rejected_create_keeps_collection st uuid req params :
  route_of req = Some (create_route, params) →
  (¬ authorized req →
   serve st uuid req =
   Result st (Response 401
                (ErrorBody "Unauthorized: Missing or invalid API key"))
     [JsonParser; Logger; Authenticate]) ∧
  (authorized req → ¬ valid_body (req_body req) →
   ∃ msg, (msg = name_required ∨ msg = price_required) ∧
     serve st uuid req =
     Result st (Response 400 (ErrorBody msg))
       [JsonParser; Logger; Authenticate; ValidateProduct; ErrorHandler]) ∧
  (req_body req !! "price" = None → ¬ valid_body (req_body req)).
Proof.
  intros Hr. split; [|split].
  - intros Hno. apply (serve_route _ _ _ _ _ _ Hr). unfold create_route.
    destruct (authenticate_cases (with_params req params) uuid st)
      as [[Hyes _]|[_ Ha]]; [contradiction|].
    erewrite dispatch_respond by exact Ha. reflexivity.
  - intros Hyes Hbad.
    destruct (authenticate_cases (with_params req params) uuid st)
      as [[_ Ha]|[Hno _]]; [|contradiction].
    destruct (validateProduct_cases (with_params req params) uuid st)
      as [[Hok _]|[_ (msg & Hmsg & Hv)]]; [contradiction|].
    exists msg. split; [exact Hmsg|].
    apply (serve_route _ _ _ _ _ _ Hr). unfold create_route.
    rewrite dispatch_forward by exact Ha.
    erewrite dispatch_error by exact Hv.
    destruct Hmsg as [-> | ->]; reflexivity.
  - intros Hp [_ [x Hx]]. congruence.
Qed.

Lemma rejected_create_witness :
  route_of bare_post = Some (create_route, ∅) ∧
  serve products "u" bare_post =
  Result products (Response 401
                     (ErrorBody "Unauthorized: Missing or invalid API key"))
    [JsonParser; Logger; Authenticate].
Proof.
  split; [reflexivity|].
  apply (rejected_create_keeps_collection products "u" bare_post ∅ eq_refl).
  unfold authorized. cbn. discriminate.
Defined.

(** ** Route order *)





(** ** Search without a term *)

(** C1 (what the code does).  A search request whose query has no [name],
    or an empty one, makes the callback evaluate the unbound identifier
    [next]: the exception reaches the error handler, which answers 500
    with the exception's message, whatever the collection holds. *)
Theorem search_without_name_is_500 st uuid q hd b :
  serve st uuid (Request GET "/api/products/search" (delete "name" q) hd b ∅)
  = Result st (Response 500 (ErrorBody "next is not defined"))
      [JsonParser; Logger; SearchProducts; ErrorHandler] ∧
  serve st uuid (Request GET "/api/products/search" (<["name" := ""]> q) hd b ∅)
  = Result st (Response 500 (ErrorBody "next is not defined"))
      [JsonParser; Logger; SearchProducts; ErrorHandler].
Proof.
  split.
  - eapply serve_route; [reflexivity|].
    cbn [dispatch handler_of search_route]. unfold search_products.
    cbn [req_query with_params]. rewrite lookup_delete_eq. reflexivity.
  - eapply serve_route; [reflexivity|].
    cbn [dispatch handler_of search_route]. unfold search_products.
    cbn [req_query with_params]. rewrite lookup_insert_eq. reflexivity.
Qed.

(** ** Looking a record up by id *)

Lemma has_id_true id p : has_id (JStr id) p = true ↔ field p "id" = JStr id.
Proof.
  unfold has_id. destruct (field p "id"); cbn; try (split; congruence).
  rewrite String.eqb_eq. split; congruence.
Qed.

Lemma has_id_false id p : has_id (JStr id) p = false ↔ field p "id" ≠ JStr id.
Proof.
  rewrite <- has_id_true. destruct (has_id (JStr id) p); split; congruence.
Qed.






Lemma error_handler_not_found id :
  error_handler (not_found (JStr id)) =
  Response 404 (ErrorBody ("Product with ID " +:+ id +:+ " not found")).
Proof. reflexivity. Qed.

Lemma id_param req params id :
  params !! "id" = Some id →
  of_param (req_params (with_params req params) !! "id") = JStr id.
Proof. cbn. now intros ->. Qed.




(** ** Update *)




(** ** Create *)


Lemma new_product_field uuid body k :
  field (new_product uuid body) k =
  if String.eqb k "id" then JStr uuid
  else if String.eqb k "inStock" then nullish (field body "inStock") (JBool true)
  else if existsb (String.eqb k) ["name"; "description"; "price"; "category"]
       then field body k
  else JUndefined.
Proof.
  unfold new_product, field at 1.
  repeat (rewrite lookup_insert; case_decide; [subst k; reflexivity|]).
  rewrite lookup_empty. cbn.
  repeat match goal with
         | H : ?s ≠ k |- _ =>
             rewrite (proj2 (String.eqb_neq k s)) by congruence; clear H
         end.
  reflexivity.
Qed.



(** ** List: filtering and pagination *)





(** Bounds that are [NaN] count as [0]: nothing is selected. *)
Lemma slice_nan {A} (l : list A) : slice l NaN NaN = [].
Proof.
  unfold slice, to_integer. cbn [Z.ltb Z.compare].
  replace (Z.to_nat _) with 0%nat by lia. reflexivity.
Qed.



Lemma strict_eq_category p c :
  strict_eq (field p "category") (JStr c) = in_category c p.
Proof.
  unfold field, in_category.
  destruct (p !! "category") as [[]|]; reflexivity.
Qed.

(** The list handler filters by [matching]. *)
Lemma list_products_filtered req st :
  (if truthy (of_param (req_query req !! "category"))
   then List.filter
          (λ p, strict_eq (field p "category")
                  (of_param (req_query req !! "category"))) st
   else st) = matching (category_filter req) st.
Proof.
  unfold category_filter.
  destruct (req_query req !! "category") as [c|]; cbn; [|reflexivity].
  destruct (String.eqb c ""); cbn; [reflexivity|].
  apply filter_ext. intros p. apply strict_eq_category.
Qed.

(** The records [matching] selects, and their order. *)
Lemma matching_spec c st p :
  p ∈ matching (Some c) st ↔ p ∈ st ∧ p !! "category" = Some (JStr c).
Proof.
  cbn [matching]. rewrite !list_elem_of_In, filter_In. unfold in_category.
  destruct (p !! "category") as [[| | | |d| | |]|];
    try (split; intros [_ ?]; discriminate).
  rewrite String.eqb_eq. split; intros [? ?]; split; congruence.
Qed.

Lemma matching_sublist f st : matching f st `sublist_of` st.
Proof.
  destruct f as [c|]; cbn [matching]; [|reflexivity].
  induction st as [|p st IH]; cbn; [constructor|].
  destruct (in_category c p); now constructor.
Qed.

Lemma list_products_eq req uuid st :
  list_products req uuid st =
  let page := parseInt (default "1" (req_query req !! "page")) in
  let limit := parseInt (default "3" (req_query req !! "limit")) in
  let filtered := matching (category_filter req) st in
  let start := num_mul (num_sub page (Num 1)) limit in
  (st, ok (ListBody page (length filtered)
             (slice filtered start (num_add start limit)))).
Proof. unfold list_products. now rewrite list_products_filtered. Qed.




(** The sample data with no filter and the default limit: the first
    three records, and a total of three. *)
Lemma list_products_default :
  serve products "u" (Request GET "/api/products" ∅ ∅ ∅ ∅) =
    Result products
      (Response 200 (ListBody (Num 1) 3 [laptop; smartphone; coffee_maker]))
      [JsonParser; Logger; ListProducts].
Proof. vm_compute. reflexivity. Qed.


(** ** List: page or limit that is not a number *)

(** C10.  When [page] or [limit] does not parse as an integer, [parseInt]
    gives [NaN], both slice bounds are [NaN], and the handler still
    answers 200: the data array is empty and [total] is the number of
    records the category filter selects. *)
Theorem list_products_nan st uuid req params :
  route_of req = Some (list_route, params) →
  let page := parseInt (default "1" (req_query req !! "page")) in
  let limit := parseInt (default "3" (req_query req !! "limit")) in
  page = NaN ∨ limit = NaN →
  let start := num_mul (num_sub page (Num 1)) limit in
  start = NaN ∧ num_add start limit = NaN ∧
  serve st uuid req =
    Result st
      (Response 200
         (ListBody page (length (matching (category_filter req) st)) []))
      [JsonParser; Logger; ListProducts].
Proof.
  intros Hr page limit Hnan start.
  assert (Hstart : start = NaN).
  { unfold start. destruct Hnan as [-> | ->]; [reflexivity|].
    now destruct page. }
  split; [exact Hstart|]. split; [now rewrite Hstart|].
  apply (serve_route _ _ _ _ _ _ Hr). unfold list_route.
  cbn [dispatch handler_of]. rewrite list_products_eq.
  cbn [with_params req_query]. fold page limit start. rewrite Hstart.
  cbn [num_add]. rewrite slice_nan. reflexivity.
Qed.

Lemma nan_page_witness :
  parseInt "abc" = NaN ∧
  serve products "u" get_page_abc =
    Result products (Response 200 (ListBody NaN 3 []))
      [JsonParser; Logger; ListProducts].
Proof.
  split; [reflexivity|].
  destruct (list_products_nan products "u" get_page_abc ∅) as (_ & _ & Hserve).
  - reflexivity.
  - left. vm_compute. reflexivity.
  - rewrite Hserve. vm_compute. reflexivity.
Defined.

(** ** The states of the collection *)

Lemma routes_effect req hs params uuid st trace res :
  route_of req = Some (hs, params) →
  finish (dispatch hs (with_params req params) uuid st trace) = Some res →
  effect uuid (req_body req) st (final_state res).
Proof.
  intros Hr. apply route_of_cases in Hr.
  set (req' := with_params req params).
  destruct (authenticate_cases req' uuid st) as [[_ Ha]|[_ Ha]];
    destruct (validateProduct_cases req' uuid st)
      as [[Hv Hval]|[_ (msg & _ & Hval)]];
    destruct Hr as [->|[->|[->|[->|[->|[->|[->| ->]]]]]]];
    unfold list_route, search_route, stats_route, get_route, create_route,
      update_route, delete_route;
    repeat (cbn [dispatch handler_of]; rewrite ?Ha, ?Hval);
    try (intros [= <-]; now constructor);
    unfold search_products, get_product, update_product, delete_product;
    repeat match goal with
           | |- context [req_query ?r !! "name"] =>
               destruct (req_query r !! "name") eqn:?
           | |- context [negb (truthy ?v)] => destruct (negb (truthy v)) eqn:?
           | |- context [search_filter ?n ?l] =>
               destruct (search_filter n l) eqn:?
           | |- context [List.find ?f ?l] => destruct (List.find f l) eqn:?
           | |- context [findIndex ?f ?l] => destruct (findIndex f l) eqn:?
           | |- context [st !! ?i] => destruct (st !! i) eqn:?
           end;
    intros [= <-]; cbn [final_state];
    try (now constructor);
    try (econstructor; eassumption).
Qed.

(** Every request changes the collection by one of the four effects. *)
Lemma serve_effect st uuid req :
  effect uuid (req_body req) st (final_state (serve st uuid req)).
Proof.
  destruct (route_of req) as [[hs params]|] eqn:Hr.
  - destruct (routes_finish req hs params uuid st [JsonParser; Logger] Hr)
      as [res Hres].
    rewrite (serve_route _ _ _ _ _ _ Hr Hres).
    exact (routes_effect _ _ _ _ _ _ _ Hr Hres).
  - rewrite (serve_no_route _ _ _ Hr). constructor.
Qed.




(** ** Search *)








(** ** Statistics *)

Lemma count_category_plain acc p d :
  p !! "category" = Some (JStr d) → object_prototype d = JUndefined →
  counts acc →
  count_category acc p = <[d := JNum (tally acc d + 1)]> acc.
Proof.
  intros Hd Hplain Hacc. unfold count_category, field. rewrite Hd.
  change (to_string (default JUndefined (Some (JStr d)))) with d.
  assert (Hproto : String.eqb d "__proto__" = false).
  { unfold object_prototype in Hplain.
    destruct (String.eqb d "constructor"); [discriminate|].
    now destruct (String.eqb d "__proto__"). }
  unfold set_property, get_property, tally. rewrite Hproto.
  destruct (acc !! d) as [v|] eqn:Hv.
  - destruct (Hacc _ _ Hv) as (n & -> & Hn).
    unfold or_zero_plus_one, js_or. cbn [truthy].
    now rewrite (proj2 (Z.eqb_neq n 0)) by lia.
  - now rewrite Hplain.
Qed.

Lemma count_category_of_cons c p st :
  count_category_of c (p :: st) =
  (if in_category c p then 1 else 0) + count_category_of c st.
Proof.
  unfold count_category_of. cbn [List.filter].
  destruct (in_category c p); cbn [length]; lia.
Qed.

(** On records whose categories are plain strings, the reduction adds to
    each key the number of records of that category. *)
Lemma fold_count_category st :
  Forall plain_category st →
  ∀ acc, counts acc →
    counts (fold_left count_category st acc) ∧
    ∀ c, tally (fold_left count_category st acc) c =
         tally acc c + count_category_of c st.
Proof.
  induction 1 as [|p st (d & Hd & Hplain) _ IH]; intros acc Hacc.
  - split; [exact Hacc|]. intros c. unfold count_category_of. cbn. lia.
  - cbn [fold_left]. rewrite (count_category_plain acc p d Hd Hplain Hacc).
    assert (Htally : 0 ≤ tally acc d).
    { unfold tally. destruct (acc !! d) as [v|] eqn:Hv; [|lia].
      destruct (Hacc _ _ Hv) as (n & -> & Hn). lia. }
    assert (Hacc' : counts (<[d := JNum (tally acc d + 1)]> acc)).
    { intros k v. rewrite lookup_insert. case_decide.
      - intros [= <-]. eexists. split; [reflexivity | lia].
      - apply Hacc. }
    destruct (IH _ Hacc') as [Hcounts Hsum]. split; [exact Hcounts|].
    intros c. rewrite Hsum, count_category_of_cons.
    unfold in_category. rewrite Hd.
    unfold tally at 1. rewrite lookup_insert. case_decide as Hc.
    + subst c. rewrite String.eqb_refl. lia.
    + rewrite (proj2 (String.eqb_neq d c) Hc). fold (tally acc c). lia.
Qed.

(** The statistics of a collection whose categories are plain strings:
    each category that occurs is mapped to its number of records, and no
    other key is present. *)
Lemma stats_plain_categories st c :
  Forall plain_category st →
  fold_left count_category st ∅ !! c =
  if count_category_of c st =? 0 then None
  else Some (JNum (count_category_of c st)).
Proof.
  intros Hst.
  assert (Hempty : counts ∅) by (intros k v; now rewrite lookup_empty).
  destruct (fold_count_category st Hst ∅ Hempty) as [Hcounts Hsum].
  specialize (Hsum c). unfold tally at 2 in Hsum.
  rewrite lookup_empty, Z.add_0_l in Hsum. unfold tally in Hsum.
  revert Hsum.
  destruct (fold_left count_category st ∅ !! c) as [v|] eqn:Hv.
  - destruct (Hcounts _ _ Hv) as (n & -> & Hn). intros <-.
    now rewrite (proj2 (Z.eqb_neq n 0)) by lia.
  - now intros <-.
Qed.

(** The statistics of the sample data. *)
Lemma stats_products :
  serve products "u" get_stats =
  Result products
    (Response 200
       (StatsBody {[ "electronics" := JNum 2; "kitchen" := JNum 1 ]}))
    [JsonParser; Logger; ProductStats].
Proof. vm_compute. reflexivity. Qed.

(** C9 (what the code does).  After a product of category "constructor"
    has been created on the sample data, the statistics still count the
    two other categories, but the entry for "constructor" is not the
    number of such records (one): the accumulator is an object literal,
    [acc["constructor"]] finds the inherited function [Object], and
    adding 1 to it yields a string. *)
Theorem stats_inherited_key :
  let st := final_state (serve products "u-4" post_constructor) in
  reachable st ∧
  count_category_of "constructor" st = 1 ∧
  ∃ data,
    sent (serve st "u" get_stats) = Response 200 (StatsBody data) ∧
    data !! "electronics" = Some (JNum 2) ∧
    data !! "kitchen" = Some (JNum 1) ∧
    data !! "constructor" = Some (JStr "function Object() { [native code] }1") ∧
    data !! "constructor" ≠ Some (JNum 1).
Proof.
  intros st. split; [apply reachable_step, reachable_init|].
  split; [vm_compute; reflexivity|].
  exists (fold_left count_category st ∅).
  repeat split; try (vm_compute; reflexivity).
  vm_compute. discriminate.
Qed.

(** * Further properties *)

(** ** What a request can do to the collection *)

(** Which routes a method can reach. *)
Lemma route_of_method req hs params :
  route_of req = Some (hs, params) →
  match req_method req with
  | GET | HEAD => read_route hs
  | POST => hs = create_route
  | PUT => hs = update_route
  | DELETE => hs = delete_route
  | OPTIONS | PATCH => False
  end.
Proof.
  unfold route_of, app, read_route. cbn [first_route].
  destruct (req_method req); cbn [handles_method];
    repeat case_route; intros Hr; try discriminate Hr;
    injection Hr as <- <-; tauto.
Qed.

(** The reading routes leave the collection as it is. *)
Lemma read_route_state hs req uuid st trace res :
  read_route hs →
  finish (dispatch hs req uuid st trace) = Some res →
  final_state res = st.
Proof.
  intros [->|[->|[->|[->| ->]]]];
    unfold list_route, search_route, stats_route, get_route;
    cbn [dispatch handler_of]; try (now intros [= <-]);
    unfold search_products, get_product; handler_cases st;
    now intros [= <-].
Qed.


(** X1.  What each method can do to the collection: a POST leaves it or
    appends the record built from the body and the generated id; a PUT
    leaves it or replaces one record by the merge of the body over it; a
    DELETE leaves it or removes one record; every other method leaves it.
    So a request changes the number of records by at most one, and a PUT
    never changes it. *)
Theorem method_effects st uuid req :
  let st' := final_state (serve st uuid req) in
  match req_method req with
  | POST => st' = st ∨ st' = st ++ [new_product uuid (req_body req)]
  | PUT =>
      length st' = length st ∧
      (st' = st ∨
       ∃ i old, st !! i = Some old ∧
                st' = <[i := spread old (req_body req)]> st)
  | DELETE =>
      st' = st ∨
      ∃ i p, st !! i = Some p ∧ st' = delete i st ∧
             S (length st') = length st
  | GET | HEAD | OPTIONS | PATCH => st' = st
  end.
Proof.
  intros st'. unfold st'. clear st'.
  destruct (route_of req) as [[hs params]|] eqn:Hr.
  2:{ rewrite (serve_no_route _ _ _ Hr). cbn [final_state].
      destruct (req_method req); auto. }
  destruct (routes_finish req hs params uuid st [JsonParser; Logger] Hr)
    as [res Hres].
  rewrite (serve_route _ _ _ _ _ _ Hr Hres).
  pose proof (route_of_method _ _ _ Hr) as Hm.
  set (req' := with_params req params) in *.
  destruct (req_method req); try contradiction;
    try exact (read_route_state _ _ _ _ _ _ Hm Hres);
    subst hs; revert Hres;
    unfold create_route, update_route, delete_route;
    (destruct (authenticate_cases req' uuid st) as [[_ Ha]|[_ Ha]];
     [rewrite (dispatch_forward Authenticate _ _ _ _ _ Ha)
     |rewrite (dispatch_respond Authenticate _ _ _ _ _ _ Ha); intros [= <-];
      cbn [final_state]; auto]).
  - destruct (validateProduct_cases req' uuid st)
      as [[_ Hv]|[_ (msg & _ & Hv)]];
      [rewrite (dispatch_forward ValidateProduct _ _ _ _ _ Hv)
      |rewrite (dispatch_error ValidateProduct _ _ _ _ _ _ Hv); intros [= <-];
       cbn [final_state]; auto].
    cbn [dispatch handler_of]. intros [= <-]. cbn [final_state]. now right.
  - destruct (validateProduct_cases req' uuid st)
      as [[_ Hv]|[_ (msg & _ & Hv)]];
      [rewrite (dispatch_forward ValidateProduct _ _ _ _ _ Hv)
      |rewrite (dispatch_error ValidateProduct _ _ _ _ _ _ Hv); intros [= <-];
       cbn [final_state]; auto].
    cbn [dispatch handler_of]. unfold update_product. handler_cases st;
      intros [= <-]; cbn [final_state]; auto.
    split; [apply length_insert|]. right. eauto.
  - cbn [dispatch handler_of]. unfold delete_product.
    destruct (findIndex _ st) as [i|] eqn:Hi;
      [|intros [= <-]; cbn [final_state]; auto].
    destruct (st !! i) as [p|] eqn:Hp;
      [|intros [= <-]; cbn [final_state]; auto].
    intros [= <-]. cbn [final_state]. right. exists i, p.
    split; [exact Hp|]. split; [reflexivity|].
    rewrite length_delete by eauto.
    apply lookup_lt_Some in Hp. lia.
Qed.



(** ** The by-id routes on an id that is present *)



(** The three guarded routes once the middleware has forwarded. *)
Lemma serve_create_ok st uuid req params :
  route_of req = Some (create_route, params) →
  authorized req → valid_body (req_body req) →
  serve st uuid req =
  Result (st ++ [new_product uuid (req_body req)])
    (Response 201
       (ProductBody (Some "Product successfully added")
          (new_product uuid (req_body req))))
    [JsonParser; Logger; Authenticate; ValidateProduct; CreateProduct].
Proof.
  intros Hr Hyes Hok.
  destruct (authenticate_cases (with_params req params) uuid st)
    as [[_ Hauth]|[Hno _]]; [|contradiction].
  destruct (validateProduct_cases (with_params req params) uuid st)
    as [[_ Hval]|[Hbad _]]; [|contradiction].
  apply (serve_route _ _ _ _ _ _ Hr). unfold create_route.
  rewrite (dispatch_forward Authenticate _ _ _ _ _ Hauth).
  rewrite (dispatch_forward ValidateProduct _ _ _ _ _ Hval).
  reflexivity.
Qed.


Lemma serve_delete_found st uuid req params id i p :
  route_of req = Some (delete_route, params) → params !! "id" = Some id →
  authorized req →
  findIndex (has_id (JStr id)) st = Some i → st !! i = Some p →
  serve st uuid req =
  Result (delete i st)
    (Response 200 (ProductBody (Some "Product successfully deleted") p))
    [JsonParser; Logger; Authenticate; DeleteProduct].
Proof.
  intros Hr Hid Hyes Hi Hp.
  destruct (authenticate_cases (with_params req params) uuid st)
    as [[_ Hauth]|[Hno _]]; [|contradiction].
  apply (serve_route _ _ _ _ _ _ Hr). unfold delete_route.
  rewrite (dispatch_forward Authenticate _ _ _ _ _ Hauth).
  cbn [dispatch handler_of]. unfold delete_product.
  rewrite (id_param _ _ _ Hid), Hi, Hp. reflexivity.
Qed.







(** ** How the operations compose *)

Lemma findIndex_appended id st p :
  absent id st → field p "id" = JStr id →
  findIndex (has_id (JStr id)) (st ++ [p]) = Some (length st).
Proof.
  intros Ha Hp. induction st as [|q st IH]; cbn.
  - now rewrite (proj2 (has_id_true id p) Hp).
  - rewrite (proj2 (has_id_false id q)) by (apply Ha, list_elem_of_here).
    rewrite IH; [reflexivity|].
    intros r Hr. apply Ha. now apply list_elem_of_further.
Qed.



(** X6.  Creating a record and then deleting the id it was given restores
    the collection: when the generated id is carried by no record, an
    accepted create followed by an authorized delete of that id leaves the
    collection as it was before the create, and the delete returns the
    created record. *)
Theorem create_then_delete st uuid u2 req params req2 params2 :
  route_of req = Some (create_route, params) →
  authorized req → valid_body (req_body req) → absent uuid st →
  route_of req2 = Some (delete_route, params2) →
  params2 !! "id" = Some uuid → authorized req2 →
  serve (final_state (serve st uuid req)) u2 req2 =
  Result st
    (Response 200
       (ProductBody (Some "Product successfully deleted")
          (new_product uuid (req_body req))))
    [JsonParser; Logger; Authenticate; DeleteProduct].
Proof.
  intros Hr Hyes Hok Hfresh Hr2 Hid2 Hyes2.
  rewrite (serve_create_ok st uuid req params Hr Hyes Hok).
  cbn [final_state].
  set (created := new_product uuid (req_body req)).
  assert (Hcid : field created "id" = JStr uuid)
    by (unfold created; now rewrite new_product_field).
  rewrite (serve_delete_found _ u2 req2 params2 uuid (length st) created
             Hr2 Hid2 Hyes2 (findIndex_appended _ _ _ Hfresh Hcid)).
  - rewrite (delete_middle st [] created). now rewrite app_nil_r.
  - rewrite lookup_app_r by lia. now rewrite Nat.sub_diag.
Qed.

Lemma create_then_delete_witness :
  serve (final_state (serve products "u-4" post_kettle)) "u"
    (Request DELETE "/api/products/u-4" ∅ api_key ∅ ∅) =
  Result products
    (Response 200
       (ProductBody (Some "Product successfully deleted")
          (new_product "u-4" (req_body post_kettle))))
    [JsonParser; Logger; Authenticate; DeleteProduct].
Proof.
  apply (create_then_delete products "u-4" "u" post_kettle ∅
           (Request DELETE "/api/products/u-4" ∅ api_key ∅ ∅)
           {[ "id" := "u-4" ]}).
  - reflexivity.
  - reflexivity.
  - split; [exists "Kettle" | exists 30];
      (split || idtac); try (vm_compute; reflexivity). discriminate.
  - intros p Hp. unfold products in Hp.
    repeat (apply elem_of_cons in Hp as [->|Hp]); [| | |inversion Hp];
      vm_compute; discriminate.
  - reflexivity.
  - vm_compute. reflexivity.
  - reflexivity.
Defined.



(** ** Responses *)






(** ** An invariant of the stored records *)

Lemma valid_body_products : Forall valid_body products.
Proof.
  repeat constructor; eexists; (split || idtac);
    try (vm_compute; reflexivity); discriminate.
Qed.

Lemma valid_body_effect uuid body st st' :
  effect uuid body st st' → Forall valid_body st → Forall valid_body st'.
Proof.
  intros [|Hv|i old Hv Hold|i] Hst.
  - exact Hst.
  - apply Forall_app. split; [exact Hst|]. constructor; [|constructor].
    destruct Hv as [(n & Hn & Hne) (x & Hx)]. split.
    + exists n. split; [|exact Hne]. unfold new_product.
      rewrite lookup_insert_ne by discriminate.
      rewrite lookup_insert_eq. unfold field. now rewrite Hn.
    + exists x. unfold new_product.
      do 3 (rewrite lookup_insert_ne by discriminate).
      rewrite lookup_insert_eq. unfold field. now rewrite Hx.
  - apply Forall_insert; [exact Hst|].
    destruct Hv as [(n & Hn & Hne) (x & Hx)]. unfold spread. split.
    + exists n. split; [|exact Hne]. now apply lookup_union_Some_l.
    + exists x. now apply lookup_union_Some_l.
  - now apply Forall_delete.
Qed.

(** X9.  In every state the service can reach from the sample data, every
    stored record has a non-empty string for a name and a number for a
    price: the two checks of [validateProduct] guard both the create and
    the update route, and nothing else writes a record. *)
Theorem reachable_records_valid st :
  reachable st → Forall valid_body st.
Proof.
  induction 1 as [|st uuid req _ IH].
  - exact valid_body_products.
  - exact (valid_body_effect _ _ _ _ (serve_effect st uuid req) IH).
Qed.

Lemma reachable_records_witness :
  Forall valid_body (final_state (serve products "u-4" post_kettle)).
Proof.
  apply reachable_records_valid. apply reachable_step, reachable_init.
Defined.

(** ** Statistics by property key *)






(** ** List: what holds for every page and limit *)

Lemma slice_segment {A} (l : list A) start end_ :
  ∃ a n, slice l start end_ = take n (drop a l).
Proof. unfold slice. eauto. Qed.

Lemma slice_length {A} (l : list A) s lim :
  0 ≤ lim →
  Z.of_nat (length (slice l (Num s) (Num (s + lim)))) ≤ lim.
Proof.
  intros Hlim. unfold slice, to_integer. rewrite length_take.
  destruct (Z.ltb_spec s 0); destruct (Z.ltb_spec (s + lim) 0); lia.
Qed.

(** X11.  A list request is always answered 200, whatever [page] and
    [limit] are (negative, zero or not numbers): [total] is the number of
    records the category filter selects, independently of the pagination;
    the data is a run of consecutive records of that selection, in their
    order; and when [limit] parses to an integer that is not negative the
    data never holds more than [limit] records. *)
Theorem list_always_succeeds st uuid req params :
  route_of req = Some (list_route, params) →
  let filtered := matching (category_filter req) st in
  ∃ data,
    serve st uuid req =
      Result st
        (Response 200
           (ListBody (parseInt (default "1" (req_query req !! "page")))
              (length filtered) data))
        [JsonParser; Logger; ListProducts] ∧
    (∃ a n, data = take n (drop a filtered)) ∧
    data `sublist_of` st ∧
    (∀ lim, parseInt (default "3" (req_query req !! "limit")) = Num lim →
            0 ≤ lim → Z.of_nat (length data) ≤ lim).
Proof.
  intros Hr filtered.
  set (page := parseInt (default "1" (req_query req !! "page"))).
  set (limit := parseInt (default "3" (req_query req !! "limit"))).
  set (start := num_mul (num_sub page (Num 1)) limit).
  exists (slice filtered start (num_add start limit)).
  split; [|split; [|split]].
  - apply (serve_route _ _ _ _ _ _ Hr). unfold list_route.
    cbn [dispatch handler_of]. rewrite list_products_eq. reflexivity.
  - apply slice_segment.
  - destruct (slice_segment filtered start (num_add start limit))
      as (a & n & ->).
    transitivity filtered; [|apply matching_sublist].
    transitivity (drop a filtered); [apply sublist_take | apply sublist_drop].
  - intros lim Hlim Hpos. unfold start. fold limit in Hlim. rewrite Hlim.
    destruct page as [|pg]; cbn [num_sub num_mul num_add].
    + rewrite slice_nan. cbn. lia.
    + now apply slice_length.
Qed.

Lemma list_always_witness :
  ∃ data,
    serve products "u" get_negative_page =
      Result products (Response 200 (ListBody (Num (-1)) 3 data))
        [JsonParser; Logger; ListProducts] ∧
    Z.of_nat (length data) ≤ 1.
Proof.
  destruct (list_always_succeeds products "u" get_negative_page ∅)
    as (data & Hserve & _ & _ & Hlen); [reflexivity|].
  exists data. split; [exact Hserve|].
  apply Hlen; [vm_compute; reflexivity | lia].
Defined.

(** ** Reading a page number back *)






Lemma digits_of_nonempty f n acc : acc ≠ "" → digits_of f n acc ≠ "".
Proof.
  revert n acc. induction f as [|f IH]; intros n acc Hacc; [exact Hacc|].
  cbn [digits_of]. destruct (n <? 10); [discriminate|].
  apply IH. discriminate.
Qed.

Lemma digits_of_succ_nonempty f n acc : digits_of (S f) n acc ≠ "".
Proof.
  cbn [digits_of]. destruct (n <? 10); [discriminate|].
  apply digits_of_nonempty. discriminate.
Qed.









(** ** Pages *)





(** ** Search and the case of the term *)








(** ** An update that carries an id *)





(** ** Listing and statistics agree *)

Lemma route_of_list_path q hd b :
  route_of (Request GET "/api/products" q hd b ∅) = Some (list_route, ∅).
Proof. reflexivity. Qed.

Lemma route_of_stats_path q hd b :
  route_of (Request GET "/api/products/stats" q hd b ∅)
  = Some (stats_route, ∅).
Proof. reflexivity. Qed.

(** X16.  On a collection whose categories are strings that name no member
    of [Object.prototype], the listing and the statistics agree: for every
    non-empty category [c], the [total] of the listing filtered by [c] is
    the count the statistics give for [c] (none when no record has it),
    whatever page and limit the listing asks for. *)
Theorem list_total_is_stats_count st uuid q hd b c :
  Forall plain_category st → c ≠ "" →
  list_total
    (serve st uuid
       (Request GET "/api/products" (<["category" := c]> q) hd b ∅)) =
  stats_count
    (serve st uuid (Request GET "/api/products/stats" ∅ hd b ∅)) c.
Proof.
  intros Hst Hc.
  erewrite (serve_route st uuid _ list_route ∅);
    [|apply route_of_list_path|].
  2:{ unfold list_route. cbn [dispatch handler_of].
      rewrite list_products_eq. reflexivity. }
  erewrite (serve_route st uuid _ stats_route ∅);
    [|apply route_of_stats_path|reflexivity].
  unfold list_total, stats_count. cbn [sent json].
  unfold category_filter. cbn [with_params req_query].
  rewrite lookup_insert_eq, (proj2 (String.eqb_neq c "") Hc).
  cbn [matching]. fold (count_category_of c st).
  unfold tally. rewrite (stats_plain_categories st c Hst).
  destruct (Z.eqb_spec (count_category_of c st) 0) as [-> |_]; reflexivity.
Qed.

Lemma list_total_witness :
  list_total (serve products "u" get_electronics) = 2 ∧
  stats_count (serve products "u" get_stats) "electronics" = 2.
Proof.
  assert (Hplain : Forall plain_category products).
  { repeat constructor; eexists; split; vm_compute; reflexivity. }
  pose proof (list_total_is_stats_count products "u" ∅ ∅ ∅ "electronics"
                Hplain ltac:(discriminate)) as Heq.
  split; [vm_compute; reflexivity|].
  unfold get_stats. rewrite <- Heq. vm_compute. reflexivity.
Defined.
